(** * monitor_ssm_request.py: polling an SSM Run Command until it settles

    A shallow embedding of [src/monitor_ssm_request.py] and the proofs of
    the properties its specification states.

    - Python [int] is [Z]; [str] is [string]; a [dict] with string keys is
      a [gmap string _]; a [list] is a [list]. What Python itself does
      with these values (subscripts, [in], truth of a value, a missing
      key) is written out, exceptions included.
    - [summarize_status] is embedded twice: as the fold its loop is, and
      on a store of dict objects, allocating and updating in place; the
      second justifies the first.
    - The process is an interaction tree over what the program asks of
      its environment: printing, the calls into [boto3], sleeping, and
      leaving the process by [sys.exit] or by an uncaught exception.
      [json.loads] is a parameter of the development.
    - [run] executes a tree against results of the remote call given in
      advance and returns what the process did and how it ended. *)

From stdpp Require Import gmap strings list fin_maps.
From ITree Require Import ITree ITreeFacts.
From Stdlib Require Import Floats.SpecFloat Strings.Ascii.

Local Open Scope string_scope.
Local Open Scope Z_scope.
Local Open Scope list_scope.

Set Default Proof Using "Type".
#[local] Set Warnings "-register-all".

(* ================================================================= *)
(** ** Data *)

(** A value found under a key of an invocation record as boto3 returns
    it. The service model types [Status] as a string; the scalars are
    the hashable values a field can hold beside it. *)
Inductive attr : Type :=
| AttrStr (s : string)
| AttrInt (z : Z)
| AttrBool (b : bool).

(** One element of [response["CommandInvocations"]]: a dict. *)
Abbreviation invocation := (gmap string attr).

(** The dict [summarize_status] builds: category name to count. *)
Abbreviation summary_dict := (gmap string Z).

(** The keys of the dict literal of [summarize_status], in its order. *)
Definition categories : list string :=
  ["Success"; "Failed"; "InProgress"; "Cancelled";
   "TimedOut"; "Cancelling"; "Received"; "Other"].

(** The seven categories that name a status of the service. *)
Definition named_categories : list string :=
  ["Success"; "Failed"; "InProgress"; "Cancelled";
   "TimedOut"; "Cancelling"; "Received"].

(* ================================================================= *)
(** ** summarize_status (lines 56-73) *)

(** The dict literal of lines 57-66. *)
Definition initial_summary : summary_dict :=
  {[ "Success" := 0; "Failed" := 0; "InProgress" := 0; "Cancelled" := 0;
     "TimedOut" := 0; "Cancelling" := 0; "Received" := 0; "Other" := 0 ]}.

(** [summary[key]], read. Python raises [KeyError] on a missing key; the
    code reads keys of the literal only, or under the guard
    [status in summary], and the keys never change (lemma
    [summarize_status_keys]), so the default is never taken. *)
Definition getitem (s : summary_dict) (key : string) : Z :=
  default 0 (s !! key).

(** [summary[key] += 1]. *)
Definition increment (key : string) (s : summary_dict) : summary_dict :=
  <[key := getitem s key + 1]> s.

(** [status in summary], for the value [invocation.get("Status")]
    returned, with the key found when the test holds: only a string can
    equal a key of the dict; [None] and the other scalars hash and
    compare unequal to every key. *)
Definition status_in (status : option attr) (s : summary_dict)
  : option string :=
  match status with
  | Some (AttrStr name) =>
      match s !! name with Some _ => Some name | None => None end
  | _ => None
  end.

(** The body of the [for] loop, lines 68-72. *)
Definition count_status (s : summary_dict) (inv : invocation) : summary_dict :=
  let status := inv !! "Status" in
  match status_in status s with
  | Some name => increment name s
  | None => increment "Other" s
  end.

(** The whole function: the loop folds its body over the list, from the
    literal. *)
Definition summarize_status (invocations : list invocation) : summary_dict :=
  foldl count_status initial_summary invocations.

(** [sum(summary.values())] of [print_summary], line 77. *)
Definition sum_values (s : summary_dict) : Z :=
  map_fold (fun _ count acc => count + acc) 0 s.

(** *** The summarizer's bucket of a record, in the specification's words *)

(** "If it exactly matches one of the seven named categories, increments
    that category; otherwise increments Other." *)
Definition classify (inv : invocation) : string :=
  match inv !! "Status" with
  | Some (AttrStr name) =>
      if bool_decide (name ∈ named_categories) then name else "Other"
  | _ => "Other"
  end.

(** How many records of the list fall in bucket [c]. *)
Definition tally (c : string) (invocations : list invocation) : Z :=
  Z.of_nat (length (filter (fun inv => classify inv = c) invocations)).

(** The eight counts of a summary, added up by name. *)
Definition sum_categories (s : summary_dict) : Z :=
  getitem s "Success" + getitem s "Failed" + getitem s "InProgress"
  + getitem s "Cancelled" + getitem s "TimedOut" + getitem s "Cancelling"
  + getitem s "Received" + getitem s "Other".

(** A dict has exactly the keys of the literal. *)
Definition has_categories (s : summary_dict) : Prop :=
  forall c, is_Some (s !! c) <-> c ∈ categories.

(* ================================================================= *)
(** ** summarize_status on the heap

    The same function with the dict it builds as an object of a store,
    allocated by the literal and updated in place by the loop, as Python
    runs it. A computation takes the store and returns the store with a
    value or a raised exception. *)

Inductive exn : Type :=
| JSONDecodeError
| KeyError
| TypeError.

Module Heap.

Abbreviation loc := positive.

(** The dict objects alive, by address. *)
Abbreviation store := (gmap loc (gmap string Z)).

Definition M (A : Type) : Type := store -> (exn + A) * store.

Definition ret {A} (a : A) : M A := fun σ => (inr a, σ).

Definition bind {A B} (m : M A) (k : A -> M B) : M B := fun σ =>
  match m σ with
  | (inr a, σ') => k a σ'
  | (inl e, σ') => (inl e, σ')
  end.

Definition raise {A} (e : exn) : M A := fun σ => (inl e, σ).

Notation "'let!' x ':=' m 'in' k" := (bind m (fun x => k))
  (at level 10, x name, m at level 100, k at level 200).
Notation "m '>>' k" := (bind m (fun _ => k))
  (at level 100, k at level 200, right associativity).

(** A dict display: a new object at an address not in use. *)
Definition new_dict (d : gmap string Z) : M loc := fun σ =>
  let l := fresh (dom σ) in (inr l, <[l := d]> σ).

(** The dict a name is bound to. A name always refers to a live object;
    the [None] case is not reached by the code below. *)
Definition deref (l : loc) : M (gmap string Z) := fun σ =>
  match σ !! l with
  | Some d => (inr d, σ)
  | None => (inl KeyError, σ)
  end.

(** [d[key] += 1]: reads [d[key]], which raises [KeyError] on a missing
    key, and stores the sum back into the same object. *)
Definition dict_increment (l : loc) (key : string) : M unit :=
  let! d := deref l in
  match d !! key with
  | Some n => fun σ => (inr tt, <[l := <[key := n + 1]> d]> σ)
  | None => raise KeyError
  end.

(** [for x in xs: body(x)]. *)
Fixpoint for_each {A} (xs : list A) (body : A -> M unit) : M unit :=
  match xs with
  | [] => ret tt
  | x :: xs' => body x >> for_each xs' body
  end.

(** The body of the loop, lines 68-72, on the dict at [summary]. *)
Definition count_status_heap (summary : loc) (inv : invocation) : M unit :=
  let status := inv !! "Status" in
  let! d := deref summary in
  match status_in status d with
  | Some name => dict_increment summary name
  | None => dict_increment summary "Other"
  end.

(** Lines 56-73, returning the address of the dict built. *)
Definition summarize_status_heap (invocations : list invocation) : M loc :=
  let! summary := new_dict initial_summary in
  for_each invocations (count_status_heap summary) >>
  ret summary.

(** Two calls in a row on the same argument. *)
Definition summarize_twice (invocations : list invocation) : M (loc * loc) :=
  let! first := summarize_status_heap invocations in
  let! second := summarize_status_heap invocations in
  ret (first, second).

End Heap.

(* ================================================================= *)
(** ** JSON documents

    What [json.loads] returns: [None], [bool], [int], [float], [str],
    [list], and [dict] with string keys. *)

Inductive pyval : Type :=
| PyNone
| PyBool (b : bool)
| PyInt (z : Z)
| PyFloat (f : spec_float)
| PyStr (s : string)
| PyList (items : list pyval)
| PyDict (entries : gmap string pyval).

(** [bool(v)], the test of [if not command_id]. *)
Definition truthy (v : pyval) : bool :=
  match v with
  | PyNone => false
  | PyBool b => b
  | PyInt z => negb (z =? 0)
  | PyFloat (S754_zero _) => false
  | PyFloat _ => true
  | PyStr s => negb (String.eqb s "")
  | PyList items => negb (Nat.eqb (length items) 0)
  | PyDict entries => negb (Nat.eqb (size entries) 0)
  end.

(** [v[key]] for a string key: a dict looks the key up and raises
    [KeyError] when it is absent; a list or a str takes no string index,
    and the other values take no subscript at all: [TypeError]. *)
Definition subscript (v : pyval) (key : string) : exn + pyval :=
  match v with
  | PyDict entries =>
      match entries !! key with
      | Some x => inr x
      | None => inl KeyError
      end
  | _ => inl TypeError
  end.

(** [json.loads] of the standard library: the document of a text, or
    [None] where it raises [JSONDecodeError]. *)
Class JsonDecoder := json_loads : string -> option pyval.

(* ================================================================= *)
(** ** The process and its environment *)

Variant stream : Type := Stdout | Stderr.

(** A part of a printed line: literal text of the (f-)string, or a value
    formatted in it. *)
Variant fpart : Type :=
| Text (s : string)
| Value (v : pyval).

(** [boto3.Session]: the attribute the program reads. *)
Record session : Type := { region_name : option string }.

(** The client object [session.client] returns. *)
Variant client : Type := Client (id : nat).

(** The dict [list_command_invocations] returns: the entry under
    ["CommandInvocations"], when there is one. *)
Record response : Type := { CommandInvocations : option (list invocation) }.

(** How the remote call ends, as [fetch_command_invocations] tells the
    cases apart: it returns the response, or raises the [ClientError]
    whose [str] is [message]. *)
Variant call_result : Type :=
| Response (r : response)
| ClientError (message : string).

(** What the process asks of its environment:
    - [PrintLine file line]: [print(line, file=file)];
    - [Boto3Session profile_name]: [boto3.Session(profile_name=...)], or
      [boto3.Session()] for [None]; the answer is the session;
    - [SessionClient s service region]: [s.client(service,
      region_name=region)]; the answer is the client;
    - [ListCommandInvocations c CommandId Details]: the remote call
      [c.list_command_invocations(CommandId=..., Details=...)]; the
      answer is how it ends;
    - [Sleep seconds]: [time.sleep(seconds)];
    - [Exit status]: [sys.exit(status)]; no answer, the process is over;
    - [Uncaught e]: the exception [e] leaves the program; no answer.
    Printing, opening the session, making the client and sleeping are
    taken to return. *)
Variant procE : Type -> Type :=
| PrintLine (file : stream) (line : list fpart) : procE unit
| Boto3Session (profile_name : option string) : procE session
| SessionClient (s : session) (service : string)
    (client_region : option string) : procE client
| ListCommandInvocations (c : client) (CommandId : pyval)
    (Details : bool) : procE call_result
| Sleep (seconds : Z) : procE unit
| Exit (status : Z) : procE Empty_set
| Uncaught (e : exn) : procE Empty_set.

Notation "'let!' x ':=' t 'in' k" := (ITree.bind t (fun x => k))
  (at level 10, x name, t at level 100, k at level 200).
Notation "t '>>' k" := (ITree.bind t (fun _ => k))
  (at level 100, k at level 200, right associativity).

Definition print (line : list fpart) : itree procE unit :=
  ITree.trigger (PrintLine Stdout line).

Definition eprint (line : list fpart) : itree procE unit :=
  ITree.trigger (PrintLine Stderr line).

(** [sys.exit(status)]: nothing runs after it. *)
Definition sys_exit {R} (status : Z) : itree procE R :=
  Vis (Exit status) (fun v : Empty_set => match v with end).

(** An exception that reaches the top of the program: the interpreter
    writes the traceback to the error stream and the process ends with
    status 1. *)
Definition uncaught {R} (e : exn) : itree procE R :=
  Vis (Uncaught e) (fun v : Empty_set => match v with end).

(** *** parse_arguments (lines 10-32) *)

(** The options given on the command line, converted by [argparse]:
    [--interval] to an [int], the others kept as [str]. *)
Record command_line : Type :=
  { opt_interval : option Z;
    opt_profile : option string;
    opt_region : option string }.

(** The namespace [parser.parse_args()] returns, each absent option at
    its default. *)
Record namespace : Type :=
  { interval : Z; profile : option string; region : option string }.

Definition parse_arguments (argv : command_line) : namespace :=
  {| interval := default 15 (opt_interval argv);
     profile := opt_profile argv;
     region := opt_region argv |}.

(** *** extract_command_id (lines 34-43) *)

Definition invalid_input_message : list fpart :=
  [Text "Error: Invalid input JSON. Ensure it contains 'Command.CommandId'."].

(** The [try] block, lines 36-40: a value returned or an exception
    raised. *)
Definition extract_try `{JsonDecoder} (input_json : string) : exn + pyval :=
  match json_loads input_json with
  | None => inl JSONDecodeError
  | Some data =>
      match subscript data "Command" with
      | inl e => inl e
      | inr command =>
          match subscript command "CommandId" with
          | inl e => inl e
          | inr command_id =>
              if negb (truthy command_id) then inl KeyError
              else inr command_id
          end
      end
  end.

(** The function: the clause [except (json.JSONDecodeError, KeyError)]
    handles those two; any other exception goes on to the caller. *)
Definition extract_command_id `{JsonDecoder} (input_json : string)
  : itree procE pyval :=
  match extract_try input_json with
  | inr command_id => Ret command_id
  | inl JSONDecodeError | inl KeyError =>
      eprint invalid_input_message >> sys_exit 1
  | inl e => uncaught e
  end.

(** *** fetch_command_invocations (lines 45-54) *)

(** The two ways out of the [try]: [response.get("CommandInvocations",
    [])] returned, or the [except ClientError] clause. *)
Definition fetch_outcome (r : call_result) : itree procE (list invocation) :=
  match r with
  | Response resp => Ret (default [] (CommandInvocations resp))
  | ClientError message =>
      eprint [Text "Error fetching command invocations: "; Text message] >>
      sys_exit 1
  end.

Definition fetch_command_invocations (ssm_client : client) (command_id : pyval)
  : itree procE (list invocation) :=
  let! r := ITree.trigger (ListCommandInvocations ssm_client command_id true) in
  fetch_outcome r.

(** *** print_summary (lines 75-86) *)

Definition separator : list fpart :=
  [Text "----------------------------------------"].

Definition print_summary (s : summary_dict) : itree procE unit :=
  let count key := Value (PyInt (getitem s key)) in
  print [Text "Status Summary:"] >>
  print [Text "  Total Instances:    "; Value (PyInt (sum_values s))] >>
  print [Text "  Success:            "; count "Success"] >>
  print [Text "  Failed:             "; count "Failed"] >>
  print [Text "  In Progress:        "; count "InProgress"] >>
  print [Text "  Cancelled:          "; count "Cancelled"] >>
  print [Text "  Timed Out:          "; count "TimedOut"] >>
  print [Text "  Cancelling:         "; count "Cancelling"] >>
  print [Text "  Received:           "; count "Received"] >>
  print [Text "  Other:              "; count "Other"] >>
  print separator.

(** *** main (lines 88-123) *)

(** Lines 110-123: one turn of the loop from the point where the fetch
    has returned. The value is the [all_completed] the turn leaves. *)
Definition poll_cycle (args : namespace) (invocations : list invocation)
  : itree procE bool :=
  let summary := summarize_status invocations in
  print_summary summary >>
  if (getitem summary "InProgress" =? 0)
     && (getitem summary "Cancelling" =? 0)
     && (getitem summary "Received" =? 0)
  then
    (if 0 <? getitem summary "Failed"
     then print [Text "Some invocations failed."] >> @sys_exit unit 1
     else print [Text "All invocations succeeded."] >> @sys_exit unit 0) >>
    Ret true
  else
    ITree.trigger (Sleep (interval args)) >>
    Ret false.

(** [while not all_completed: ...], lines 108-123, as the iteration of
    its test and body on the variable [all_completed]. *)
Definition poll_body (args : namespace) (ssm_client : client)
    (command_id : pyval) (all_completed : bool) : itree procE (bool + unit) :=
  if negb all_completed then
    let! invocations := fetch_command_invocations ssm_client command_id in
    let! all_completed' := poll_cycle args invocations in
    Ret (inl all_completed')
  else Ret (inr tt).

Definition poll_loop (args : namespace) (ssm_client : client)
    (command_id : pyval) : itree procE unit :=
  ITree.iter (poll_body args ssm_client command_id) false.

(** A [str] option of the command line is taken when it is not empty. *)
Definition given (o : option string) : bool :=
  match o with
  | Some s => negb (String.eqb s "")
  | None => false
  end.

(** [main], on the options of the command line and the text read from
    the standard input. *)
Definition main `{JsonDecoder} (argv : command_line) (stdin : string)
  : itree procE unit :=
  let args := parse_arguments argv in
  let input_json := stdin in
  let! command_id := extract_command_id input_json in
  print [Text "Monitoring AWS SSM Command ID: "; Value command_id] >>
  print [Text "Polling interval: "; Value (PyInt (interval args));
         Text " seconds"] >>
  print separator >>
  let! session :=
    (if given (profile args)
     then ITree.trigger (Boto3Session (profile args))
     else ITree.trigger (Boto3Session None)) in
  let region := if given (region args) then region args
                else region_name session in
  let! ssm_client := ITree.trigger (SessionClient session "ssm" region) in
  poll_loop args ssm_client command_id.

(* ================================================================= *)
(** ** Points of the run the properties speak about *)

(** The specification's termination predicate on the latest summary. *)
Definition complete (s : summary_dict) : Prop :=
  getitem s "InProgress" = 0 /\ getitem s "Cancelling" = 0
  /\ getitem s "Received" = 0.

#[global] Instance complete_dec (s : summary_dict) : Decision (complete s).
Proof. unfold complete. apply _. Defined.

(** The loop from the point where the fetch of a turn has returned
    [invocations]: the rest of the turn, then the test of the [while]. *)
Definition poll_after (args : namespace) (ssm_client : client)
    (command_id : pyval) (invocations : list invocation) : itree procE unit :=
  let! all_completed := poll_cycle args invocations in
  if negb all_completed then poll_loop args ssm_client command_id else Ret tt.

(** The loop from the point where the remote call of a turn has ended
    with [r]. *)
Definition poll_on (args : namespace) (ssm_client : client)
    (command_id : pyval) (r : call_result) : itree procE unit :=
  let! invocations := fetch_outcome r in
  poll_after args ssm_client command_id invocations.


(** The value at the path [Command.CommandId] of a document, when the
    document is an object with an object under ["Command"] that has the
    key ["CommandId"]. *)
Definition command_id_at (data : pyval) : option pyval :=
  match data with
  | PyDict entries =>
      match entries !! "Command" with
      | Some (PyDict command) => command !! "CommandId"
      | _ => None
      end
  | _ => None
  end.

(** A document or a value under ["Command"] that is no object while the
    path goes through it: the wrong shape. *)
Definition is_dict (v : pyval) : bool :=
  match v with PyDict _ => true | _ => false end.

Definition wrong_shape (data : pyval) : bool :=
  match data with
  | PyDict entries =>
      match entries !! "Command" with
      | Some command => negb (is_dict command)
      | None => false
      end
  | _ => true
  end.

(** [s] between double quotes. *)
Definition quoted (s : string) : string :=
  String "034"%char (s +:+ String "034"%char "").

(** The text [{"Command":{"CommandId":"<id>"}}]. *)
Definition command_text (id : string) : string :=
  "{" +:+ quoted "Command" +:+ ":{" +:+ quoted "CommandId" +:+ ":"
  +:+ quoted id +:+ "}}".

(** The document [{"Command":{"CommandId": id}}] as [json.loads] returns
    it. *)
Definition command_document (id : pyval) : pyval :=
  PyDict {[ "Command" := PyDict {[ "CommandId" := id ]} ]}.

(** A decoder given by a table of texts with their documents; any other
    text does not decode. *)
Fixpoint decoder_of (table : list (string * pyval)) (text : string)
  : option pyval :=
  match table with
  | [] => None
  | (known, data) :: table' =>
      if String.eqb known text then Some data else decoder_of table' text
  end.

(** [json.loads] on the texts of the examples. The properties hold for
    every decoder; this one gives the examples a decoder to run with. *)
Definition sample_loads : JsonDecoder :=
  decoder_of
    [ ("[]", PyList []);
      (command_text "abc-123", command_document (PyStr "abc-123"));
      (command_text "", command_document (PyStr ""));
      ("{" +:+ quoted "Command" +:+ ":null}",
       PyDict {[ "Command" := PyNone ]}) ].

(* ================================================================= *)
(** ** Running the process

    The process against an environment given in advance: the session
    [boto3] opens and the results of the remote calls, in order. The run
    records what the process does and how it ends. Fuel bounds the number
    of steps, silent ones included. *)

Variant observation : Type :=
| Printed (file : stream) (line : list fpart)
| OpenedSession (profile_name : option string)
| MadeClient (service : string) (client_region : option string)
| Called (CommandId : pyval) (Details : bool)
| Slept (seconds : Z).

Variant ending : Type :=
| Exited (status : Z)       (* [sys.exit(status)] *)
| Crashed (e : exn)         (* uncaught exception: traceback, status 1 *)
| Returned                  (* the program ran to its end: status 0 *)
| Waiting                   (* a remote call with no result left to give *)
| OutOfFuel.

Definition exit_status (e : ending) : option Z :=
  match e with
  | Exited status => Some status
  | Crashed _ => Some 1
  | Returned => Some 0
  | Waiting | OutOfFuel => None
  end.

Definition is_call (o : observation) : bool :=
  match o with Called _ _ => true | _ => false end.

Definition is_sleep (o : observation) : bool :=
  match o with Slept _ => true | _ => false end.

Definition observed (o : observation)
    (rest : list observation * ending) : list observation * ending :=
  (o :: fst rest, snd rest).

Fixpoint run {R} (fuel : nat) (sess : session) (results : list call_result)
    (t : itree procE R) : list observation * ending :=
  match fuel with
  | O => ([], OutOfFuel)
  | S fuel' =>
      match observe t with
      | RetF _ => ([], Returned)
      | TauF t' => run fuel' sess results t'
      | VisF e k =>
          match e in procE X
                return (X -> itree procE R) -> list observation * ending with
          | PrintLine file line => fun k =>
              observed (Printed file line) (run fuel' sess results (k tt))
          | Boto3Session profile_name => fun k =>
              observed (OpenedSession profile_name)
                (run fuel' sess results (k sess))
          | SessionClient _ service client_region => fun k =>
              observed (MadeClient service client_region)
                (run fuel' sess results (k (Client 0)))
          | ListCommandInvocations _ CommandId Details => fun k =>
              match results with
              | [] => ([Called CommandId Details], Waiting)
              | r :: results' =>
                  observed (Called CommandId Details)
                    (run fuel' sess results' (k r))
              end
          | Sleep seconds => fun k =>
              observed (Slept seconds) (run fuel' sess results (k tt))
          | Exit status => fun _ => ([], Exited status)
          | Uncaught e => fun _ => ([], Crashed e)
          end k
      end
  end.

(** A trace, then a run. *)
Definition prepend (trace : list observation)
    (rest : list observation * ending) : list observation * ending :=
  (trace ++ fst rest, snd rest).

(** What [print_summary] leaves on the standard output. *)
Definition summary_lines (s : summary_dict) : list observation :=
  let count key := Value (PyInt (getitem s key)) in
  Printed Stdout <$>
  [ [Text "Status Summary:"];
    [Text "  Total Instances:    "; Value (PyInt (sum_values s))];
    [Text "  Success:            "; count "Success"];
    [Text "  Failed:             "; count "Failed"];
    [Text "  In Progress:        "; count "InProgress"];
    [Text "  Cancelled:          "; count "Cancelled"];
    [Text "  Timed Out:          "; count "TimedOut"];
    [Text "  Cancelling:         "; count "Cancelling"];
    [Text "  Received:           "; count "Received"];
    [Text "  Other:              "; count "Other"];
    separator ].

(** A record with the given status. *)
Definition with_status (status : string) : invocation :=
  {[ "Status" := AttrStr status ]}.

Definition returned (statuses : list string) : call_result :=
  Response {| CommandInvocations := Some (with_status <$> statuses) |}.

Definition no_options : command_line :=
  {| opt_interval := None; opt_profile := None; opt_region := None |}.

(* ================================================================= *)
(** ** What the further properties speak about *)

#[global] Instance attr_eq_dec : EqDecision attr.
Proof. solve_decision. Defined.

(** The status of a record is the string [name]. *)
Definition has_status (name : string) (inv : invocation) : Prop :=
  inv !! "Status" = Some (AttrStr name).

#[global] Instance has_status_dec name inv : Decision (has_status name inv).
Proof. unfold has_status. apply _. Defined.

(** A record still on its way: in progress, cancelling or received. *)
Definition in_flight (inv : invocation) : Prop :=
  has_status "InProgress" inv \/ has_status "Cancelling" inv
  \/ has_status "Received" inv.

(** The loop as a function of the results of the remote call, in the
    order they come: what the process does and how it ends. *)
Fixpoint poll_trace (args : namespace) (cid : pyval)
    (results : list call_result) : list observation * ending :=
  match results with
  | [] => ([Called cid true], Waiting)
  | ClientError message :: _ =>
      ([Called cid true;
        Printed Stderr
          [Text "Error fetching command invocations: "; Text message]],
       Exited 1)
  | Response resp :: rest =>
      let s := summarize_status (default [] (CommandInvocations resp)) in
      let turn := Called cid true :: summary_lines s in
      if bool_decide (complete s)
      then if bool_decide (0 < getitem s "Failed")
           then (turn ++ [Printed Stdout [Text "Some invocations failed."]],
                 Exited 1)
           else (turn ++ [Printed Stdout [Text "All invocations succeeded."]],
                 Exited 0)
      else prepend (turn ++ [Slept (interval args)])
             (poll_trace args cid rest)
  end.

(** What [main] does before the loop, lines 96-104, once the command id
    is extracted. *)
Definition startup_trace (args : namespace) (sess : session)
    (command_id : pyval) : list observation :=
  [ Printed Stdout [Text "Monitoring AWS SSM Command ID: "; Value command_id];
    Printed Stdout [Text "Polling interval: "; Value (PyInt (interval args));
                    Text " seconds"];
    Printed Stdout separator;
    OpenedSession (if given (profile args) then profile args else None);
    MadeClient "ssm" (if given (region args) then region args
                      else region_name sess) ].

(** Steps that are enough for the loop to use up [results]. *)
Definition poll_fuel (results : list call_result) : nat :=
  14 * length results + 1.



(** The calls and the sleeps of a trace, in order. *)
Definition pace (trace : list observation) : list observation :=
  List.filter (fun o => is_call o || is_sleep o) trace.


(** The block [print_summary] writes for the summary of [invocations],
    told by the records: their number, and the number in each bucket. *)
Definition report (invocations : list invocation) : list observation :=
  let count c := Value (PyInt (tally c invocations)) in
  Printed Stdout <$>
  [ [Text "Status Summary:"];
    [Text "  Total Instances:    ";
     Value (PyInt (Z.of_nat (length invocations)))];
    [Text "  Success:            "; count "Success"];
    [Text "  Failed:             "; count "Failed"];
    [Text "  In Progress:        "; count "InProgress"];
    [Text "  Cancelled:          "; count "Cancelled"];
    [Text "  Timed Out:          "; count "TimedOut"];
    [Text "  Cancelling:         "; count "Cancelling"];
    [Text "  Received:           "; count "Received"];
    [Text "  Other:              "; count "Other"];
    separator ].

(* ================================================================= *)
(** ** Proofs: the summarizer *)

Section summarizer.
Implicit Types (s : summary_dict) (inv : invocation) (c name : string).

Lemma elem_of_categories c :
  c ∈ categories <->
  c = "Success" \/ c = "Failed" \/ c = "InProgress" \/ c = "Cancelled" \/
  c = "TimedOut" \/ c = "Cancelling" \/ c = "Received" \/ c = "Other".
Proof. unfold categories. rewrite !elem_of_cons, elem_of_nil. tauto. Qed.

Lemma elem_of_named_categories c :
  c ∈ named_categories <-> c ∈ categories /\ c <> "Other".
Proof.
  rewrite elem_of_categories. unfold named_categories.
  rewrite !elem_of_cons, elem_of_nil.
  split; [|tauto].
  intros H; split; [tauto|]. intros ->.
  repeat (destruct H as [H|H]; [discriminate H|]). exact H.
Qed.

Lemma getitem_insert_eq s c n : getitem (<[c := n]> s) c = n.
Proof. unfold getitem. by rewrite lookup_insert_eq. Qed.

Lemma getitem_insert_ne s c k n :
  c <> k -> getitem (<[c := n]> s) k = getitem s k.
Proof. intros. unfold getitem. by rewrite lookup_insert_ne. Qed.

Lemma initial_has_categories : has_categories initial_summary.
Proof.
  intros c. rewrite elem_of_categories. unfold initial_summary.
  rewrite !lookup_insert_is_Some. rewrite <- not_eq_None_Some.
  rewrite lookup_singleton_None.
  destruct (decide ("Other" = c)) as [<-|]; intuition congruence.
Qed.

(** [increment] on a key of the dict keeps the keys. *)
Lemma increment_has_categories s c :
  has_categories s -> c ∈ categories -> has_categories (increment c s).
Proof.
  intros Hs Hc k. unfold increment.
  rewrite lookup_insert_is_Some, (Hs k).
  destruct (decide (c = k)) as [<-|]; tauto.
Qed.

(** The guard [status in summary] picks the bucket the specification
    names, on every dict with the literal's keys. *)
Lemma count_status_classify s inv :
  has_categories s -> count_status s inv = increment (classify inv) s.
Proof.
  intros Hs. unfold count_status, classify, status_in.
  destruct (inv !! "Status") as [[name| |]|]; try reflexivity.
  case_bool_decide as Hn.
  - apply elem_of_named_categories in Hn as [Hn _].
    apply Hs in Hn as [n ->]. reflexivity.
  - destruct (s !! name) as [n|] eqn:E; [|reflexivity].
    assert (name ∈ categories) as Hc by (apply Hs; eauto).
    destruct (decide (name = "Other")) as [->|Hne]; [reflexivity|].
    exfalso. apply Hn, elem_of_named_categories. done.
Qed.

Lemma classify_category inv : classify inv ∈ categories.
Proof.
  unfold classify.
  destruct (inv !! "Status") as [[name| |]|];
    try (apply elem_of_categories; tauto).
  case_bool_decide as Hn.
  - by apply elem_of_named_categories in Hn as [? _].
  - apply elem_of_categories; tauto.
Qed.

Lemma count_status_keys s inv :
  has_categories s -> has_categories (count_status s inv).
Proof.
  intros Hs. rewrite count_status_classify by done.
  apply increment_has_categories; [done | apply classify_category].
Qed.

Lemma tally_cons c inv invs :
  tally c (inv :: invs)
  = (if decide (classify inv = c) then 1 else 0) + tally c invs.
Proof.
  unfold tally. rewrite filter_cons.
  destruct (decide (classify inv = c)); simpl; lia.
Qed.

(** The loop from any dict with the literal's keys: each key has grown by
    the number of records of its bucket, and no key has appeared. *)
Lemma foldl_count_status invs : forall s,
  has_categories s ->
  has_categories (foldl count_status s invs) /\
  forall c, getitem (foldl count_status s invs) c = getitem s c + tally c invs.
Proof.
  induction invs as [|inv invs IH]; intros s Hs; simpl.
  - split; [done|]. intros c. unfold tally; simpl. lia.
  - destruct (IH (count_status s inv)) as [Hk Hv];
      [by apply count_status_keys|].
    split; [done|]. intros c. rewrite Hv, tally_cons.
    rewrite count_status_classify by done. unfold increment.
    destruct (decide (classify inv = c)) as [->|Hne].
    + rewrite getitem_insert_eq. lia.
    + rewrite getitem_insert_ne by done. lia.
Qed.

Lemma getitem_initial c : getitem initial_summary c = 0.
Proof.
  unfold initial_summary, getitem.
  repeat (rewrite lookup_insert; case_decide; [reflexivity|]).
  rewrite lookup_singleton. case_decide; reflexivity.
Qed.

Lemma summarize_status_keys invs : has_categories (summarize_status invs).
Proof. apply foldl_count_status, initial_has_categories. Qed.

(** Every count is the number of records of that bucket. *)
Lemma summarize_status_tally invs c :
  getitem (summarize_status invs) c = tally c invs.
Proof.
  unfold summarize_status.
  destruct (foldl_count_status invs initial_summary initial_has_categories)
    as [_ ->].
  rewrite getitem_initial. lia.
Qed.

Lemma summarize_status_lookup invs c :
  summarize_status invs !! c =
  if decide (c ∈ categories) then Some (tally c invs) else None.
Proof.
  pose proof (summarize_status_keys invs c) as Hk.
  pose proof (summarize_status_tally invs c) as Ht. unfold getitem in Ht.
  case_decide as Hc.
  - apply Hk in Hc as [n Hn]. rewrite Hn in Ht |- *. simpl in Ht. by subst.
  - apply eq_None_not_Some. tauto.
Qed.

(** One more record: the loop runs its body once more. *)
Lemma summarize_status_snoc invs inv :
  summarize_status (invs ++ [inv]) = count_status (summarize_status invs) inv.
Proof. unfold summarize_status. by rewrite foldl_app. Qed.

(** Each record falls in one bucket: the eight tallies add up to the
    number of records. *)
Lemma tally_total invs :
  tally "Success" invs + tally "Failed" invs + tally "InProgress" invs
  + tally "Cancelled" invs + tally "TimedOut" invs + tally "Cancelling" invs
  + tally "Received" invs + tally "Other" invs = Z.of_nat (length invs).
Proof.
  induction invs as [|inv invs IH]; [reflexivity|].
  rewrite !tally_cons, length_cons, Nat2Z.inj_succ, <- IH.
  pose proof (classify_category inv) as Hc.
  apply elem_of_categories in Hc.
  generalize dependent (classify inv). intros bucket Hc.
  destruct Hc as [->|[->|[->|[->|[->|[->|[->| ->]]]]]]];
    repeat (case_decide; try congruence); lia.
Qed.

(** A dict with the literal's keys is the literal with its counts. *)
Lemma has_categories_literal s :
  has_categories s ->
  s = {[ "Success" := getitem s "Success"; "Failed" := getitem s "Failed";
         "InProgress" := getitem s "InProgress";
         "Cancelled" := getitem s "Cancelled";
         "TimedOut" := getitem s "TimedOut";
         "Cancelling" := getitem s "Cancelling";
         "Received" := getitem s "Received"; "Other" := getitem s "Other" ]}.
Proof.
  intros Hs. apply map_eq. intros c.
  assert (forall k, k ∈ categories -> s !! k = Some (getitem s k)) as Hget.
  { intros k [n Hn]%Hs. unfold getitem. by rewrite Hn. }
  repeat (rewrite lookup_insert; case_decide;
          [subst c; apply Hget, elem_of_categories; tauto|]).
  rewrite lookup_singleton. case_decide.
  - subst c. apply Hget, elem_of_categories; tauto.
  - apply eq_None_not_Some. rewrite (Hs c), elem_of_categories.
    intuition congruence.
Qed.

(** [sum(summary.values())] is the sum of the eight counts. *)
Lemma sum_values_categories s :
  has_categories s -> sum_values s = sum_categories s.
Proof.
  intros Hs.
  etrans; [exact (f_equal sum_values (has_categories_literal s Hs))|].
  unfold sum_values, sum_categories.
  repeat (rewrite map_fold_insert_L;
    [ | intros; lia
      | repeat (rewrite lookup_insert_ne by done);
        by rewrite lookup_singleton_ne ]).
  rewrite map_fold_singleton. lia.
Qed.

(** One more record adds one to its bucket and changes nothing else. *)
Lemma summarize_status_snoc_bucket invs inv :
  summarize_status (invs ++ [inv])
  = <[classify inv := getitem (summarize_status invs) (classify inv) + 1]>
      (summarize_status invs).
Proof.
  rewrite summarize_status_snoc.
  by rewrite count_status_classify by apply summarize_status_keys.
Qed.

Lemma tally_Permutation c invs1 invs2 :
  invs1 ≡ₚ invs2 -> tally c invs1 = tally c invs2.
Proof. intros Hp. unfold tally. by rewrite Hp. Qed.

(** C2: for every sequence of invocation records the eight counts of the
    summary add up to the length of the sequence, and so does
    [sum(summary.values())], the summary having the eight keys and no
    other: every record is counted in exactly one bucket. *)
Theorem summary_counts_every_record (invocations : list invocation) :
  has_categories (summarize_status invocations)
  /\ sum_categories (summarize_status invocations)
     = Z.of_nat (length invocations)
  /\ sum_values (summarize_status invocations)
     = Z.of_nat (length invocations).
Proof.
  assert (sum_categories (summarize_status invocations)
          = Z.of_nat (length invocations)) as Hsum.
  { unfold sum_categories. rewrite !summarize_status_tally.
    apply tally_total. }
  split; [apply summarize_status_keys|]. split; [exact Hsum|].
  rewrite sum_values_categories by apply summarize_status_keys. exact Hsum.
Qed.

(** C4: processing one more record whose status is exactly one of the
    seven named categories adds one to that category and changes nothing
    else; a record with any other status adds one to Other and changes
    nothing else, so it is neither dropped nor counted in a named
    bucket. *)
Theorem count_status_bucket (invocations : list invocation) (inv : invocation) :
  let before := summarize_status invocations in
  let after := summarize_status (invocations ++ [inv]) in
  match inv !! "Status" with
  | Some (AttrStr name) =>
      if bool_decide (name ∈ named_categories)
      then after = <[name := getitem before name + 1]> before
      else after = <["Other" := getitem before "Other" + 1]> before
  | _ => after = <["Other" := getitem before "Other" + 1]> before
  end.
Proof.
  intros before after. subst before after.
  rewrite summarize_status_snoc_bucket. unfold classify.
  destruct (inv !! "Status") as [[name| |]|]; try reflexivity.
  case_bool_decide; reflexivity.
Qed.

(** C8: a record without a [Status] key is counted under Other: the
    summary after it is the summary before it with Other one higher. *)
Theorem missing_status_counts_as_other
    (invocations : list invocation) (inv : invocation) :
  inv !! "Status" = None ->
  summarize_status (invocations ++ [inv])
  = <["Other" := getitem (summarize_status invocations) "Other" + 1]>
      (summarize_status invocations).
Proof.
  intros Hnone. rewrite summarize_status_snoc_bucket.
  unfold classify. by rewrite Hnone.
Qed.

Lemma missing_status_counts_as_other_witness :
  (∅ : invocation) !! "Status" = None
  /\ summarize_status ([] ++ [∅])
     = <["Other" := getitem (summarize_status []) "Other" + 1]>
         (summarize_status []).
Proof.
  split; [reflexivity|].
  apply (missing_status_counts_as_other [] ∅). reflexivity.
Defined.

(** C10: the summary of a sequence and of any permutation of it are the
    same dict. *)
Theorem summarize_status_permutation (invs1 invs2 : list invocation) :
  invs1 ≡ₚ invs2 -> summarize_status invs1 = summarize_status invs2.
Proof.
  intros Hp. apply map_eq. intros c.
  rewrite !summarize_status_lookup. case_decide; [|reflexivity].
  f_equal. by apply tally_Permutation.
Qed.

Lemma summarize_status_permutation_witness :
  let a : invocation := {[ "Status" := AttrStr "Success" ]} in
  let b : invocation := {[ "Status" := AttrStr "Failed" ]} in
  [a; b; a] ≡ₚ [a; a; b]
  /\ summarize_status [a; b; a] = summarize_status [a; a; b].
Proof.
  intros a b.
  assert ([a; b; a] ≡ₚ [a; a; b]) as Hp.
  { apply perm_skip, perm_swap. }
  split; [exact Hp|]. exact (summarize_status_permutation _ _ Hp).
Defined.

End summarizer.

(** The keys of the dict are an invariant of the loop; the proofs below
    take it from here. *)
Create HintDb summary discriminated.
#[global] Hint Resolve initial_has_categories count_status_keys
  summarize_status_keys classify_category : summary.

(* ================================================================= *)
(** ** Proofs: the summarizer on the heap *)

Section heap.
Implicit Types (σ : Heap.store) (l : Heap.loc) (d : summary_dict).

Lemma dict_increment_run σ l d key :
  σ !! l = Some d -> is_Some (d !! key) ->
  Heap.dict_increment l key σ = (inr tt, <[l := increment key d]> σ).
Proof.
  intros Hl [n Hn]. unfold Heap.dict_increment, Heap.bind, Heap.deref.
  rewrite Hl, Hn. unfold increment, getitem. by rewrite Hn.
Qed.

(** One turn of the loop updates the object as [count_status] says and
    touches nothing else. *)
Lemma count_status_heap_run σ l d inv :
  σ !! l = Some d -> has_categories d ->
  Heap.count_status_heap l inv σ = (inr tt, <[l := count_status d inv]> σ).
Proof.
  intros Hl Hd. unfold Heap.count_status_heap, count_status.
  unfold Heap.bind at 1. unfold Heap.deref at 1. rewrite Hl.
  unfold status_in.
  destruct (inv !! "Status") as [[name| |]|];
    try (apply dict_increment_run; [done|apply Hd, elem_of_categories; tauto]).
  destruct (d !! name) as [n|] eqn:E.
  - apply dict_increment_run; [done|by rewrite E].
  - apply dict_increment_run; [done|apply Hd, elem_of_categories; tauto].
Qed.

Lemma for_each_count_status invs : forall σ l d,
  σ !! l = Some d -> has_categories d ->
  Heap.for_each invs (Heap.count_status_heap l) σ
  = (inr tt, <[l := foldl count_status d invs]> σ).
Proof.
  induction invs as [|inv invs IH]; intros σ l d Hl Hd; simpl.
  - unfold Heap.ret. by rewrite insert_id.
  - unfold Heap.bind. rewrite (count_status_heap_run σ l d) by done.
    rewrite (IH _ l (count_status d inv));
      [|by rewrite lookup_insert_eq|auto with summary].
    by rewrite insert_insert_eq.
Qed.

(** The function allocates one dict, at an address not in use, leaves
    every other object as it was and returns the dict the pure reading
    computes, whatever the store holds. *)
Lemma summarize_status_heap_run invs σ :
  Heap.summarize_status_heap invs σ
  = (inr (fresh (dom σ)), <[fresh (dom σ) := summarize_status invs]> σ).
Proof.
  unfold Heap.summarize_status_heap, Heap.bind, Heap.new_dict.
  rewrite (for_each_count_status invs _ _ initial_summary);
    [|by rewrite lookup_insert_eq|auto with summary].
  unfold Heap.ret. by rewrite insert_insert_eq.
Qed.

Lemma fresh_loc_unused σ : σ !! fresh (dom σ) = None.
Proof. apply not_elem_of_dom, is_fresh. Qed.

(** C7: the summarizer is a pure function of its argument. From any
    store, two calls in a row on the same sequence both return; each
    returns a dict of its own, at an address that was not in use; the two
    dicts are equal, and are the summary that depends on the sequence
    alone; every object that was in the store is unchanged. *)
Theorem summarize_status_pure
    (invocations : list invocation) (σ : Heap.store) :
  exists first second : Heap.loc,
    Heap.summarize_twice invocations σ
    = (inr (first, second),
       <[second := summarize_status invocations]>
         (<[first := summarize_status invocations]> σ))
    /\ σ !! first = None /\ σ !! second = None /\ first <> second.
Proof.
  set (result := summarize_status invocations).
  set (first := fresh (dom σ)).
  set (second := fresh (dom (<[first := result]> σ))).
  assert (<[first := result]> σ !! second = None) as Hsecond
    by apply fresh_loc_unused.
  exists first, second. split; [|split; [|split]].
  - unfold Heap.summarize_twice, Heap.bind.
    by rewrite !summarize_status_heap_run.
  - apply fresh_loc_unused.
  - apply lookup_insert_None in Hsecond. tauto.
  - apply lookup_insert_None in Hsecond. tauto.
Qed.

End heap.

(* ================================================================= *)
(** ** Proofs: the process as a tree *)

(** Both sides start with the same computation: go on after it. *)
Ltac same_start := apply eutt_eq_bind; intros ?.

Section process.
Context `{JsonDecoder}.
Implicit Types (args : namespace) (c : client) (cid : pyval).

(** Nothing runs after [sys.exit] or after an uncaught exception. *)
Lemma sys_exit_bind {R S} (status : Z) (k : R -> itree procE S) :
  ITree.bind (sys_exit status) k ≅ sys_exit status.
Proof.
  unfold sys_exit. rewrite bind_vis. apply eqit_Vis. intros [].
Qed.

Lemma uncaught_bind {R S} (e : exn) (k : R -> itree procE S) :
  ITree.bind (uncaught e) k ≅ uncaught e.
Proof.
  unfold uncaught. rewrite bind_vis. apply eqit_Vis. intros [].
Qed.

(** One turn of the loop, with the silent step [ITree.iter] takes before
    the next test of the [while]. *)
Lemma poll_loop_step args c cid :
  poll_loop args c cid
  ≅ ITree.bind (fetch_command_invocations c cid) (fun invocations =>
      ITree.bind (poll_cycle args invocations) (fun all_completed =>
        Tau (ITree.iter (poll_body args c cid) all_completed))).
Proof.
  unfold poll_loop. rewrite unfold_iter. unfold poll_body at 1. simpl.
  rewrite bind_bind. apply eqit_bind; [reflexivity|]. intros invs.
  rewrite bind_bind. apply eqit_bind; [reflexivity|]. intros done.
  rewrite bind_ret_l. reflexivity.
Qed.

Lemma poll_loop_unfold args c cid :
  poll_loop args c cid
  ≈ ITree.bind (fetch_command_invocations c cid) (poll_after args c cid).
Proof.
  rewrite poll_loop_step. same_start.
  unfold poll_after. apply eutt_eq_bind. intros done.
  rewrite tau_eutt. destruct done; simpl; [|reflexivity].
  rewrite unfold_iter. unfold poll_body. simpl.
  rewrite bind_ret_l. reflexivity.
Qed.

(** The loop opens with the remote call, asked for details. *)
Lemma poll_loop_call args c cid :
  poll_loop args c cid
  ≈ Vis (ListCommandInvocations c cid true) (poll_on args c cid).
Proof.
  rewrite poll_loop_unfold. unfold fetch_command_invocations.
  rewrite bind_bind, bind_trigger. reflexivity.
Qed.

Lemma poll_on_response args c cid resp :
  poll_on args c cid (Response resp)
  ≈ poll_after args c cid (default [] (CommandInvocations resp)).
Proof. unfold poll_on, fetch_outcome. rewrite bind_ret_l. reflexivity. Qed.

(** The test of line 114 is the specification's predicate, and the test
    of line 116 is [Failed > 0]. *)
Lemma complete_test (s : summary_dict) :
  (getitem s "InProgress" =? 0) && (getitem s "Cancelling" =? 0)
  && (getitem s "Received" =? 0) = bool_decide (complete s).
Proof.
  unfold complete. case_bool_decide as Hc.
  - destruct Hc as (-> & -> & ->). reflexivity.
  - apply not_true_is_false. intros Ht. apply Hc.
    apply andb_prop in Ht as [[H1 H2]%andb_prop H3]. lia.
Qed.

Lemma failed_test (s : summary_dict) :
  (0 <? getitem s "Failed") = bool_decide (0 < getitem s "Failed").
Proof. case_bool_decide; [apply Z.ltb_lt|apply Z.ltb_ge]; lia. Qed.

(** What a turn does once the fetch has returned. *)
Lemma poll_after_cases args c cid invs :
  poll_after args c cid invs
  ≈ (print_summary (summarize_status invs) >>
     if bool_decide (complete (summarize_status invs))
     then if bool_decide (0 < getitem (summarize_status invs) "Failed")
          then print [Text "Some invocations failed."] >> sys_exit 1
          else print [Text "All invocations succeeded."] >> sys_exit 0
     else ITree.trigger (Sleep (interval args)) >> poll_loop args c cid).
Proof.
  unfold poll_after, poll_cycle. cbv zeta.
  rewrite complete_test, failed_test, bind_bind. same_start.
  case_bool_decide.
  - rewrite bind_bind.
    case_bool_decide; rewrite !bind_bind;
      same_start; rewrite !sys_exit_bind; reflexivity.
  - rewrite bind_bind. same_start. rewrite bind_ret_l. reflexivity.
Qed.






(** [extract_command_id], outcome by outcome. *)
Lemma extract_command_id_cases (text : string) :
  extract_command_id text =
  match json_loads text with
  | None => eprint invalid_input_message >> sys_exit 1
  | Some data =>
      if wrong_shape data then uncaught TypeError
      else match command_id_at data with
           | None => eprint invalid_input_message >> sys_exit 1
           | Some command_id =>
               if truthy command_id then Ret command_id
               else eprint invalid_input_message >> sys_exit 1
           end
  end.
Proof.
  unfold extract_command_id, extract_try.
  destruct (json_loads text) as [data|]; [|reflexivity].
  destruct data as [| | | | | |entries]; try reflexivity. simpl.
  destruct (entries !! "Command") as [command|]; [|reflexivity].
  destruct command as [| | | | | |command]; try reflexivity. simpl.
  destruct (command !! "CommandId") as [command_id|]; [|reflexivity].
  destruct (truthy command_id); reflexivity.
Qed.

(** Where [extract_command_id] ends the process, so does [main], at
    once: nothing of [main] follows. *)
Lemma main_rejects argv text :
  extract_command_id text = (eprint invalid_input_message >> sys_exit 1) ->
  main argv text ≅ (eprint invalid_input_message >> sys_exit 1).
Proof.
  intros Hx. unfold main. cbv zeta. rewrite Hx, bind_bind.
  apply eqit_bind; [reflexivity|]. intros _. apply sys_exit_bind.
Qed.

Lemma main_uncaught argv text e :
  extract_command_id text = uncaught e -> main argv text ≅ uncaught e.
Proof.
  intros Hx. unfold main. cbv zeta. rewrite Hx. apply uncaught_bind.
Qed.

End process.

(* ================================================================= *)
(** ** Proofs: the process as a run *)

Section runs.
Context `{JsonDecoder}.
Implicit Types (args : namespace) (c : client) (cid : pyval).
Implicit Types (sess : session) (results rest : list call_result).

(** Trees that are the same step for step run the same. *)
Lemma run_eq_itree {R} fuel : forall sess results (t1 t2 : itree procE R),
  t1 ≅ t2 -> run fuel sess results t1 = run fuel sess results t2.
Proof.
  induction fuel as [|fuel IH]; intros sess results t1 t2 Heq; [reflexivity|].
  apply eqit_inv in Heq. simpl. unfold observe.
  destruct (_observe t1) as [r1|t1'|X1 e1 k1],
           (_observe t2) as [r2|t2'|X2 e2 k2];
    simpl in Heq; try contradiction.
  - reflexivity.
  - by apply IH.
  - destruct Heq as (p & He & Hk). destruct p. simpl in He, Hk. subst e2.
    destruct e1; try reflexivity; try (f_equal; apply IH, Hk).
    destruct results; [reflexivity|]. f_equal. apply IH, Hk.
Qed.

#[global] Instance run_proper {R} fuel sess results :
  Proper (eq_itree eq ==> eq) (@run R fuel sess results).
Proof. intros t1 t2 Heq. by apply run_eq_itree. Qed.

Lemma run_ret_bind {R S} fuel sess results (r : R) (k : R -> itree procE S) :
  run fuel sess results (ITree.bind (Ret r) k) = run fuel sess results (k r).
Proof. by rewrite bind_ret_l. Qed.

Lemma run_print {R} fuel sess results file line (k : unit -> itree procE R) :
  run (S fuel) sess results
    (ITree.bind (ITree.trigger (PrintLine file line)) k)
  = observed (Printed file line) (run fuel sess results (k tt)).
Proof. simpl. by rewrite run_ret_bind. Qed.

Lemma run_sleep {R} fuel sess results seconds (k : unit -> itree procE R) :
  run (S fuel) sess results (ITree.bind (ITree.trigger (Sleep seconds)) k)
  = observed (Slept seconds) (run fuel sess results (k tt)).
Proof. simpl. by rewrite run_ret_bind. Qed.

Lemma run_call {R} fuel sess r results c cid
    (k : list invocation -> itree procE R) :
  run (S fuel) sess (r :: results)
    (ITree.bind (fetch_command_invocations c cid) k)
  = observed (Called cid true)
      (run fuel sess results (ITree.bind (fetch_outcome r) k)).
Proof.
  unfold fetch_command_invocations. rewrite bind_bind. simpl.
  by rewrite run_ret_bind.
Qed.

Lemma run_print_summary {R} fuel sess results s
    (k : unit -> itree procE R) :
  run (11 + fuel) sess results (ITree.bind (print_summary s) k)
  = prepend (summary_lines s) (run fuel sess results (k tt)).
Proof.
  unfold print_summary, print.
  change (11 + fuel)%nat
    with (S (S (S (S (S (S (S (S (S (S (S fuel))))))))))).
  do 11 (rewrite ?bind_bind; rewrite run_print). reflexivity.
Qed.

(** A turn, run: the call, the summary, and then the verdict. *)
Lemma run_poll_turn args c cid resp fuel sess rest :
  let s := summarize_status (default [] (CommandInvocations resp)) in
  let turn := Called cid true :: summary_lines s in
  run (14 + fuel) sess (Response resp :: rest) (poll_loop args c cid)
  = if bool_decide (complete s)
    then if bool_decide (0 < getitem s "Failed")
         then (turn ++ [Printed Stdout [Text "Some invocations failed."]],
               Exited 1)
         else (turn ++ [Printed Stdout [Text "All invocations succeeded."]],
               Exited 0)
    else prepend (turn ++ [Slept (interval args)])
           (run fuel sess rest (poll_loop args c cid)).
Proof.
  intros s turn. subst turn. rewrite poll_loop_step at 1.
  change (14 + fuel)%nat with (S (11 + S (S fuel))).
  rewrite run_call. unfold fetch_outcome. rewrite bind_ret_l.
  unfold poll_cycle. cbv zeta. fold s.
  rewrite bind_bind, run_print_summary, complete_test, failed_test.
  case_bool_decide.
  - case_bool_decide; rewrite !bind_bind; unfold print;
      rewrite run_print, sys_exit_bind; reflexivity.
  - rewrite bind_bind, run_sleep, bind_ret_l. simpl.
    unfold observed, prepend. simpl. reflexivity.
Qed.

(** The call raising: three steps, whatever fuel and results remain. *)
Lemma run_poll_error args c cid message fuel sess rest :
  run (3 + fuel) sess (ClientError message :: rest) (poll_loop args c cid)
  = ([Called cid true;
      Printed Stderr
        [Text "Error fetching command invocations: "; Text message]],
     Exited 1).
Proof. reflexivity. Qed.


Lemma run_main_rejects argv text fuel sess results :
  extract_command_id text = (eprint invalid_input_message >> sys_exit 1) ->
  run (2 + fuel) sess results (main argv text)
  = ([Printed Stderr invalid_input_message], Exited 1).
Proof. intros Hx. rewrite (main_rejects argv text Hx). reflexivity. Qed.

Lemma run_main_uncaught argv text e fuel sess results :
  extract_command_id text = uncaught e ->
  run (1 + fuel) sess results (main argv text) = ([], Crashed e).
Proof. intros Hx. rewrite (main_uncaught argv text e Hx). reflexivity. Qed.

End runs.

(* ================================================================= *)
(** ** The properties of the loop and of the input parser

    Each property is stated twice where it speaks of what the process
    does: on the tree of the program, up to silent steps, and on its run
    against results of the remote call given in advance, for every amount
    of fuel beyond the steps the run takes. *)

Section properties.
Context `{JsonDecoder}.
Implicit Types (args : namespace) (c : client) (cid : pyval).
Implicit Types (sess : session) (rest : list call_result).

(** C1: each turn of the loop makes the remote call; when it returns,
    the summary is printed and the run is complete exactly when
    [InProgress], [Cancelling] and [Received] are all zero in that
    summary: the process then leaves with status 1 if [Failed > 0] and
    with status 0 otherwise, each after its notice; when the summary is
    not complete the process does not leave: it sleeps and the loop goes
    on with the results that remain. *)
Theorem completion_decides_exit args c cid (resp : response)
    (fuel : nat) sess rest :
  let s := summarize_status (default [] (CommandInvocations resp)) in
  let turn := Called cid true :: summary_lines s in
  poll_loop args c cid
    ≈ Vis (ListCommandInvocations c cid true) (poll_on args c cid)
  /\ poll_on args c cid (Response resp)
     ≈ (print_summary s >>
        if bool_decide (complete s)
        then if bool_decide (0 < getitem s "Failed")
             then print [Text "Some invocations failed."] >> sys_exit 1
             else print [Text "All invocations succeeded."] >> sys_exit 0
        else ITree.trigger (Sleep (interval args)) >> poll_loop args c cid)
  /\ run (14 + fuel) sess (Response resp :: rest) (poll_loop args c cid)
     = if bool_decide (complete s)
       then if bool_decide (0 < getitem s "Failed")
            then (turn ++ [Printed Stdout [Text "Some invocations failed."]],
                  Exited 1)
            else (turn ++ [Printed Stdout [Text "All invocations succeeded."]],
                  Exited 0)
       else prepend (turn ++ [Slept (interval args)])
              (run fuel sess rest (poll_loop args c cid)).
Proof.
  intros s turn. split; [apply poll_loop_call|]. split.
  - rewrite poll_on_response. apply poll_after_cases.
  - apply run_poll_turn.
Qed.



(** C9: a fetch that returns no record -- an empty list, or a response
    without the key -- gives the summary of zeros, which is complete with
    [Failed = 0]: on that turn the process prints the summary and the
    success notice and leaves with status 0. *)
Theorem empty_fetch_succeeds args c cid (resp : response)
    (fuel : nat) sess rest :
  default [] (CommandInvocations resp) = [] ->
  summarize_status [] = initial_summary
  /\ complete initial_summary /\ getitem initial_summary "Failed" = 0
  /\ poll_on args c cid (Response resp)
     ≈ (print_summary initial_summary >>
        print [Text "All invocations succeeded."] >> sys_exit 0)
  /\ run (14 + fuel) sess (Response resp :: rest) (poll_loop args c cid)
     = (Called cid true :: summary_lines initial_summary
        ++ [Printed Stdout [Text "All invocations succeeded."]],
        Exited 0).
Proof.
  intros Hempty.
  assert (complete initial_summary) as Hc by (by vm_compute).
  assert (~ 0 < getitem initial_summary "Failed") as Hf
    by (vm_compute; discriminate).
  split; [reflexivity|]. split; [exact Hc|]. split; [reflexivity|]. split.
  - rewrite poll_on_response, Hempty, poll_after_cases.
    change (summarize_status []) with initial_summary.
    by rewrite bool_decide_eq_true_2, bool_decide_eq_false_2.
  - rewrite run_poll_turn, Hempty.
    change (summarize_status []) with initial_summary.
    by rewrite bool_decide_eq_true_2, bool_decide_eq_false_2.
Qed.

(** The inputs the handler covers: a text that does not decode, a
    document where a key of the path is missing from an object, and a
    [CommandId] that is falsy. The diagnostic, one line, is written to
    the error stream and the process leaves with status 1; no session is
    opened and no remote call is made, whatever the environment holds. *)
Lemma malformed_input_rejected argv text (fuel : nat) sess rest :
  (json_loads text = None
   \/ exists data, json_loads text = Some data /\ wrong_shape data = false
      /\ (command_id_at data = None
          \/ exists v, command_id_at data = Some v /\ truthy v = false)) ->
  extract_command_id text = (eprint invalid_input_message >> sys_exit 1)
  /\ main argv text ≈ (eprint invalid_input_message >> sys_exit 1)
  /\ run (2 + fuel) sess rest (main argv text)
     = ([Printed Stderr invalid_input_message], Exited 1).
Proof.
  intros Hbad.
  assert (extract_command_id text
          = (eprint invalid_input_message >> sys_exit 1)) as Hx.
  { rewrite extract_command_id_cases.
    destruct Hbad as [->|(data & -> & -> & [->|(v & -> & ->)])];
      reflexivity. }
  split; [exact Hx|]. split.
  - by rewrite (main_rejects argv text Hx).
  - by apply run_main_rejects.
Qed.

(** C3 (where the code departs from it): a text that decodes to a
    document of the wrong shape -- the document itself, or the value
    under ["Command"], is not an object -- raises [TypeError] at the
    subscript, which the [except] clause does not name: the diagnostic is
    not written, and the exception leaves [extract_command_id] and [main]
    uncaught. The process ends by the traceback, with nothing printed by
    the program and no remote call. *)
Theorem wrong_shape_escapes_handler argv text data (fuel : nat) sess rest :
  json_loads text = Some data -> wrong_shape data = true ->
  extract_command_id text = uncaught TypeError
  /\ main argv text ≈ uncaught TypeError
  /\ run (1 + fuel) sess rest (main argv text) = ([], Crashed TypeError).
Proof.
  intros Hdata Hshape.
  assert (extract_command_id text = uncaught TypeError) as Hx.
  { by rewrite extract_command_id_cases, Hdata, Hshape. }
  split; [exact Hx|]. split.
  - by rewrite (main_uncaught argv text _ Hx).
  - by apply run_main_uncaught.
Qed.

End properties.

(** *** Witnesses *)

Lemma wrong_shape_escapes_handler_witness :
  @json_loads sample_loads "[]" = Some (PyList [])
  /\ wrong_shape (PyList []) = true
  /\ run 1 {| region_name := None |} [] (@main sample_loads no_options "[]")
     = ([], Crashed TypeError).
Proof.
  split; [reflexivity|]. split; [reflexivity|].
  apply (@wrong_shape_escapes_handler sample_loads no_options "[]"
           (PyList []) 0 {| region_name := None |} []); reflexivity.
Defined.


Lemma empty_fetch_succeeds_witness :
  let args := parse_arguments no_options in
  let resp := {| CommandInvocations := None |} in
  default [] (CommandInvocations resp) = []
  /\ run (14 + 0) {| region_name := None |} [Response resp]
       (poll_loop args (Client 0) (PyStr "abc-123"))
     = (Called (PyStr "abc-123") true :: summary_lines initial_summary
        ++ [Printed Stdout [Text "All invocations succeeded."]],
        Exited 0).
Proof.
  intros args resp. split; [reflexivity|].
  apply (empty_fetch_succeeds args (Client 0) (PyStr "abc-123") resp
           0 {| region_name := None |} []).
  reflexivity.
Defined.

(* ================================================================= *)
(** ** Further properties: the summary, the report, the whole run *)

Section tallies.
Implicit Types (inv : invocation) (invs : list invocation) (c : string).

Lemma tally_app c invs1 invs2 :
  tally c (invs1 ++ invs2) = tally c invs1 + tally c invs2.
Proof. unfold tally. rewrite filter_app, length_app. lia. Qed.

Lemma tally_bounds c invs : 0 <= tally c invs <= Z.of_nat (length invs).
Proof.
  unfold tally. pose proof (length_filter (fun inv => classify inv = c) invs).
  lia.
Qed.

Lemma classify_named inv name :
  name ∈ named_categories -> classify inv = name <-> has_status name inv.
Proof.
  intros Hn. unfold classify, has_status.
  assert (name <> "Other") as Hne
    by (apply elem_of_named_categories in Hn; tauto).
  destruct (inv !! "Status") as [[s| |]|] eqn:E;
    try (split; [congruence|discriminate]).
  case_bool_decide as Hs; split; congruence.
Qed.

Lemma tally_zero c invs :
  tally c invs = 0 <-> Forall (fun inv => classify inv <> c) invs.
Proof.
  induction invs as [|inv invs IH].
  - split; [constructor|reflexivity].
  - rewrite tally_cons, Forall_cons. pose proof (tally_bounds c invs).
    case_decide; [split; [lia|tauto]|].
    rewrite <- IH. split; [intros; split; [done|lia]|intros [_ ?]; lia].
Qed.

Lemma tally_pos c invs :
  0 < tally c invs <-> Exists (fun inv => classify inv = c) invs.
Proof.
  induction invs as [|inv invs IH].
  - split; [unfold tally; simpl; lia|by intros ?%Exists_nil].
  - rewrite tally_cons, Exists_cons. pose proof (tally_bounds c invs).
    case_decide; [split; [tauto|lia]|].
    rewrite <- IH. split; [intros; right; lia|intros [?|?]; [done|lia]].
Qed.

End tallies.

Section summaries.
Implicit Types (inv : invocation) (invs : list invocation) (c : string).

(** X1: summaries add up. The summary of two sequences put end to end
    is the key-by-key sum of their summaries, as when the records of a
    command come in several batches. *)
Theorem summarize_status_app (invs1 invs2 : list invocation) :
  summarize_status (invs1 ++ invs2)
  = union_with (fun n1 n2 => Some (n1 + n2))
      (summarize_status invs1) (summarize_status invs2).
Proof.
  apply map_eq. intros c. rewrite lookup_union_with.
  rewrite !summarize_status_lookup. case_decide; [|reflexivity].
  simpl. by rewrite tally_app.
Qed.

(** X2: every count of a summary lies between 0 and the number of
    records summarized, for the eight keys and (as 0) for any other. *)
Theorem summarize_status_count_bounds (invs : list invocation) (c : string) :
  0 <= getitem (summarize_status invs) c <= Z.of_nat (length invs).
Proof. rewrite summarize_status_tally. apply tally_bounds. Qed.

(** X3: the test of line 114 read on the records: the summary passes it
    exactly when no record has the status [InProgress], [Cancelling] or
    [Received]. A record without status, or with a status the program
    does not know, does not hold the run back. *)
Theorem complete_iff_none_in_flight (invs : list invocation) :
  complete (summarize_status invs)
  <-> Forall (fun inv => ~ in_flight inv) invs.
Proof.
  unfold complete. rewrite !summarize_status_tally, !tally_zero.
  rewrite <- !Forall_and. apply Forall_proper; [|done].
  intros inv. unfold in_flight.
  rewrite <- (classify_named inv "InProgress"),
          <- (classify_named inv "Cancelling"),
          <- (classify_named inv "Received");
    [tauto| |  | ]; unfold named_categories; set_solver.
Qed.

(** X4: the test of line 116 read on the records: [Failed > 0] exactly
    when some record has the status [Failed]. No other status, known or
    unknown, counts as a failure. *)
Theorem failed_iff_some_record_failed (invs : list invocation) :
  0 < getitem (summarize_status invs) "Failed"
  <-> Exists (has_status "Failed") invs.
Proof.
  rewrite summarize_status_tally, tally_pos.
  apply Exists_proper; [|done]. intros inv.
  apply classify_named. unfold named_categories. set_solver.
Qed.
End summaries.

Section whole_runs.
Context `{JsonDecoder}.
Implicit Types (args : namespace) (c : client) (cid : pyval).
Implicit Types (sess : session) (results rest : list call_result).

Lemma run_poll_loop args c cid sess results : forall fuel,
  run (poll_fuel results + fuel) sess results (poll_loop args c cid)
  = poll_trace args cid results.
Proof.
  unfold poll_fuel.
  induction results as [|[resp|message] rest IH]; intros fuel.
  - reflexivity.
  - replace (14 * length (Response resp :: rest) + 1 + fuel)%nat
      with (14 + (14 * length rest + 1 + fuel))%nat by (simpl; lia).
    rewrite run_poll_turn, IH. reflexivity.
  - replace (14 * length (ClientError message :: rest) + 1 + fuel)%nat
      with (3 + (14 * length rest + 12 + fuel))%nat by (simpl; lia).
    apply run_poll_error.
Qed.

Lemma run_session {R} fuel sess results p (k : session -> itree procE R) :
  run (S fuel) sess results (ITree.bind (ITree.trigger (Boto3Session p)) k)
  = observed (OpenedSession p) (run fuel sess results (k sess)).
Proof. simpl. by rewrite run_ret_bind. Qed.

Lemma run_client {R} fuel sess results s service region
    (k : client -> itree procE R) :
  run (S fuel) sess results
    (ITree.bind (ITree.trigger (SessionClient s service region)) k)
  = observed (MadeClient service region) (run fuel sess results (k (Client 0))).
Proof. simpl. by rewrite run_ret_bind. Qed.

Lemma run_main_accepts argv text command_id fuel sess results :
  extract_command_id text = Ret command_id ->
  run (5 + fuel) sess results (main argv text)
  = prepend (startup_trace (parse_arguments argv) sess command_id)
      (run fuel sess results
         (poll_loop (parse_arguments argv) (Client 0) command_id)).
Proof.
  intros Hx. unfold main. cbv zeta. rewrite Hx, bind_ret_l.
  change (5 + fuel)%nat with (S (S (S (S (S fuel))))).
  unfold print. rewrite !run_print.
  unfold startup_trace.
  destruct (given (profile (parse_arguments argv)));
    rewrite run_session, run_client; reflexivity.
Qed.
End whole_runs.

Section trace_facts.
Implicit Types (args : namespace) (cid : pyval) (s : summary_dict).
Implicit Types (results rest : list call_result).

Lemma pace_app t1 t2 : pace (t1 ++ t2) = pace t1 ++ pace t2.
Proof. apply List.filter_app. Qed.

Lemma pace_summary_lines s : pace (summary_lines s) = [].
Proof. reflexivity. Qed.


Lemma pace_turn cid s tail :
  pace ((Called cid true :: summary_lines s) ++ tail)
  = Called cid true :: pace tail.
Proof.
  change (Called cid true :: summary_lines s)
    with ([Called cid true] ++ summary_lines s).
  by rewrite !pace_app, pace_summary_lines.
Qed.

Lemma poll_trace_pace args cid results :
  exists n : nat, (n <= length results)%nat
  /\ pace (fst (poll_trace args cid results))
     = mjoin (replicate n [Called cid true; Slept (interval args)])
       ++ [Called cid true].
Proof.
  induction results as [|[resp|message] rest (n & Hn & IH)].
  - exists 0%nat. split; [lia|reflexivity].
  - cbn [poll_trace].
    set (s := summarize_status (default [] (CommandInvocations resp))).
    case_bool_decide.
    + exists 0%nat. split; [simpl; lia|].
      case_bool_decide; cbn [fst]; by rewrite pace_turn.
    + exists (S n). split; [simpl; lia|]. unfold prepend. cbn [fst].
      rewrite <- app_assoc, pace_turn, pace_app, IH. reflexivity.
  - exists 0%nat. split; [simpl; lia|reflexivity].
Qed.




End trace_facts.

Section program.
Context `{JsonDecoder}.
Implicit Types (args : namespace) (c : client) (cid : pyval).
Implicit Types (sess : session) (results rest : list call_result).

Lemma command_id_at_shape data v :
  command_id_at data = Some v -> wrong_shape data = false.
Proof.
  destruct data as [| | | | | |entries]; try discriminate. simpl.
  destruct (entries !! "Command") as [[| | | | | |command]|];
    try discriminate; reflexivity.
Qed.

Lemma extract_command_id_accepts text data v :
  json_loads text = Some data -> command_id_at data = Some v ->
  truthy v = true -> extract_command_id text = Ret v.
Proof.
  intros Hd Hv Ht. rewrite extract_command_id_cases, Hd.
  by rewrite (command_id_at_shape data v Hv), Hv, Ht.
Qed.

Lemma itree_ret_inj {E R} (r1 r2 : R) :
  (Ret r1 : itree E R) = Ret r2 -> r1 = r2.
Proof. intros Heq. apply (f_equal observe) in Heq. by injection Heq. Qed.

(** X8: [extract_command_id] returns a value exactly when the text
    decodes to an object holding an object under ["Command"] that holds
    a truthy value under ["CommandId"], and what it returns is that
    value as decoded: it is neither converted nor required to be a
    string (a number or a non-empty list passes). *)
Theorem extract_command_id_returns_iff (text : string) (v : pyval) :
  extract_command_id text = Ret v
  <-> exists data, json_loads text = Some data
      /\ command_id_at data = Some v /\ truthy v = true.
Proof.
  split.
  - rewrite extract_command_id_cases.
    destruct (json_loads text) as [data|];
      [|intros Heq; apply (f_equal observe) in Heq; discriminate Heq].
    destruct (wrong_shape data);
      [intros Heq; apply (f_equal observe) in Heq; discriminate Heq|].
    destruct (command_id_at data) as [v'|] eqn:Hv;
      [|intros Heq; apply (f_equal observe) in Heq; discriminate Heq].
    destruct (truthy v') eqn:Ht;
      [|intros Heq; apply (f_equal observe) in Heq; discriminate Heq].
    intros ->%itree_ret_inj. by exists data.
  - intros (data & Hd & Hv & Ht). by eapply extract_command_id_accepts.
Qed.

(** The run of [main] on every input. *)
Lemma run_main argv text sess results fuel :
  run (5 + poll_fuel results + fuel) sess results (main argv text)
  = match json_loads text with
    | None => ([Printed Stderr invalid_input_message], Exited 1)
    | Some data =>
        if wrong_shape data then ([], Crashed TypeError)
        else match command_id_at data with
             | None => ([Printed Stderr invalid_input_message], Exited 1)
             | Some v =>
                 if truthy v
                 then prepend (startup_trace (parse_arguments argv) sess v)
                        (poll_trace (parse_arguments argv) v results)
                 else ([Printed Stderr invalid_input_message], Exited 1)
             end
    end.
Proof.
  pose proof (extract_command_id_cases text) as Hx.
  replace (5 + poll_fuel results + fuel)%nat
    with (2 + (3 + poll_fuel results + fuel))%nat in * by lia.
  destruct (json_loads text) as [data|]; [|by apply run_main_rejects].
  destruct (wrong_shape data).
  { replace (2 + (3 + poll_fuel results + fuel))%nat
      with (1 + (4 + poll_fuel results + fuel))%nat by lia.
    by apply run_main_uncaught. }
  destruct (command_id_at data) as [v|]; [|by apply run_main_rejects].
  destruct (truthy v); [|by apply run_main_rejects].
  replace (2 + (3 + poll_fuel results + fuel))%nat
    with (5 + (poll_fuel results + fuel))%nat by lia.
  rewrite (run_main_accepts argv text v _ _ _ Hx), run_poll_loop. reflexivity.
Qed.

(** X9: on an input that is accepted, every remote call of the run
    carries the value extracted from the standard input as [CommandId]
    and asks for details; two calls in a row are separated by exactly one
    sleep, of the configured interval; and there are at most as many
    sleeps as results received. *)
Theorem calls_carry_the_extracted_id argv text data v sess results fuel :
  json_loads text = Some data -> command_id_at data = Some v ->
  truthy v = true ->
  exists n : nat, (n <= length results)%nat
  /\ pace (fst (run (5 + poll_fuel results + fuel) sess results
                  (main argv text)))
     = mjoin (replicate n
                [Called v true; Slept (interval (parse_arguments argv))])
       ++ [Called v true].
Proof.
  intros Hd Hv Ht.
  rewrite run_main, Hd, (command_id_at_shape data v Hv), Hv, Ht.
  destruct (poll_trace_pace (parse_arguments argv) v results) as (n & Hn & Hp).
  exists n. split; [exact Hn|].
  unfold prepend. cbn [fst]. by rewrite pace_app, Hp.
Qed.





(** X5: when the records of a response are all settled and none has
    the status [Failed], the turn ends the process with the success
    notice and status 0, whatever the statuses are otherwise: records that
    timed out or were cancelled are reported in the block but leave the
    status at 0. *)
Theorem settled_without_failed_exits_zero args c cid (resp : response)
    sess rest fuel :
  let invs := default [] (CommandInvocations resp) in
  Forall (fun inv => ~ in_flight inv /\ ~ has_status "Failed" inv) invs ->
  run (14 + fuel) sess (Response resp :: rest) (poll_loop args c cid)
  = (Called cid true :: summary_lines (summarize_status invs)
     ++ [Printed Stdout [Text "All invocations succeeded."]],
     Exited 0).
Proof.
  intros invs [Hflight Hfailed]%Forall_and. rewrite run_poll_turn. fold invs.
  rewrite bool_decide_eq_true_2 by (by apply complete_iff_none_in_flight).
  rewrite bool_decide_eq_false_2; [reflexivity|].
  rewrite failed_iff_some_record_failed. intros Hex.
  apply Exists_exists in Hex as (inv & Hin & Hst).
  rewrite Forall_forall in Hfailed. by apply (Hfailed inv).
Qed.

(** X14: when [--region] is given and not empty, the region of the
    session plays no part: the runs with two sessions are the same. *)
Theorem command_line_region_overrides_session argv text sess1 sess2
    results fuel :
  given (opt_region argv) = true ->
  run (5 + poll_fuel results + fuel) sess1 results (main argv text)
  = run (5 + poll_fuel results + fuel) sess2 results (main argv text).
Proof.
  intros Hgiven. rewrite !run_main. unfold startup_trace. simpl region.
  by rewrite Hgiven.
Qed.

(** X15: an empty [--profile] or [--region] is the same program as the
    option left out: the tests [if args.profile] and [if args.region]
    take the empty string as absent. *)
Theorem empty_option_is_no_option (i : option Z) (p r : option string)
    (text : string) :
  main {| opt_interval := i; opt_profile := Some ""; opt_region := r |} text
  = main {| opt_interval := i; opt_profile := None; opt_region := r |} text
  /\ main {| opt_interval := i; opt_profile := p; opt_region := Some "" |} text
     = main {| opt_interval := i; opt_profile := p; opt_region := None |} text.
Proof. split; reflexivity. Qed.

End program.

Section report_and_heap.
Context `{JsonDecoder}.

(** X7: [print_summary] on the summary of a sequence writes eleven
    lines, all on the standard output, and does nothing else before its
    caller goes on: the title, the number of records as the total, the
    number of records of each bucket in the order of the source, and the
    separator. *)
Theorem print_summary_reports_records {R} (invocations : list invocation)
    (k : unit -> itree procE R) (fuel : nat) sess results :
  run (11 + fuel) sess results
    (ITree.bind (print_summary (summarize_status invocations)) k)
  = prepend (report invocations) (run fuel sess results (k tt)).
Proof.
  rewrite run_print_summary. f_equal.
  unfold summary_lines, report. cbv zeta.
  rewrite sum_values_categories by auto with summary.
  unfold sum_categories. rewrite !summarize_status_tally, tally_total.
  reflexivity.
Qed.

(** X6: run on the heap, [summarize_status] raises nothing, on every
    sequence and from every store: the subscript of line 70 is guarded by
    the test of line 69, and ["Other"] is a key of the literal. It
    returns a dict at an address that was free, holding the fold of the
    loop body, and changes no other object. *)
Theorem summarize_status_heap_never_raises
    (invocations : list invocation) (σ : Heap.store) :
  exists l : Heap.loc,
    Heap.summarize_status_heap invocations σ
    = (inr l, <[l := summarize_status invocations]> σ)
    /\ σ !! l = None.
Proof.
  exists (fresh (dom σ)). split.
  - apply summarize_status_heap_run.
  - apply fresh_loc_unused.
Qed.
End report_and_heap.

Lemma calls_carry_the_extracted_id_witness :
  let sess := {| region_name := None |} in
  let results := [returned ["InProgress"]; returned ["Success"]] in
  @json_loads sample_loads (command_text "abc-123")
    = Some (command_document (PyStr "abc-123"))
  /\ command_id_at (command_document (PyStr "abc-123"))
     = Some (PyStr "abc-123")
  /\ truthy (PyStr "abc-123") = true
  /\ exists n : nat, (n <= length results)%nat
     /\ pace (fst (run (5 + poll_fuel results + 0) sess results
                     (@main sample_loads no_options (command_text "abc-123"))))
        = mjoin (replicate n [Called (PyStr "abc-123") true; Slept 15])
          ++ [Called (PyStr "abc-123") true].
Proof.
  intros sess results.
  split; [reflexivity|]. split; [reflexivity|]. split; [reflexivity|].
  apply (@calls_carry_the_extracted_id sample_loads no_options
           (command_text "abc-123") (command_document (PyStr "abc-123"))
           (PyStr "abc-123") sess results 0); reflexivity.
Defined.


Lemma settled_without_failed_exits_zero_witness :
  let args := parse_arguments no_options in
  let sess := {| region_name := None |} in
  let invs := with_status <$> ["TimedOut"; "Cancelled"; "Success"] in
  let resp := {| CommandInvocations := Some invs |} in
  Forall (fun inv => ~ in_flight inv /\ ~ has_status "Failed" inv) invs
  /\ run (14 + 0) sess [Response resp]
       (poll_loop args (Client 0) (PyStr "abc-123"))
     = (Called (PyStr "abc-123") true :: summary_lines (summarize_status invs)
        ++ [Printed Stdout [Text "All invocations succeeded."]],
        Exited 0).
Proof.
  intros args sess invs resp.
  assert (Forall (fun inv => ~ in_flight inv /\ ~ has_status "Failed" inv)
            invs) as Hsettled.
  { repeat constructor; unfold in_flight, has_status;
      intros Hst; vm_compute in Hst; intuition discriminate. }
  split; [exact Hsettled|].
  exact (settled_without_failed_exits_zero args (Client 0) (PyStr "abc-123")
           resp sess [] 0 Hsettled).
Defined.

Lemma command_line_region_overrides_session_witness :
  let argv := {| opt_interval := None; opt_profile := None;
                 opt_region := Some "eu-west-1" |} in
  let sess1 := {| region_name := None |} in
  let sess2 := {| region_name := Some "us-east-1" |} in
  let results := [returned ["Success"]] in
  given (opt_region argv) = true
  /\ run (5 + poll_fuel results + 0) sess1 results
       (@main sample_loads argv (command_text "abc-123"))
     = run (5 + poll_fuel results + 0) sess2 results
         (@main sample_loads argv (command_text "abc-123")).
Proof.
  intros argv sess1 sess2 results. split; [reflexivity|].
  apply (@command_line_region_overrides_session sample_loads argv
           (command_text "abc-123") sess1 sess2 results 0).
  reflexivity.
Defined.

(* ================================================================= *)
(** ** Runs of the specification's scenarios *)

Section scenarios.
Let session0 : session := {| region_name := None |}.
Let stuck : call_result := returned ["Success"; "InProgress"].

Example scenario_summary :
  summarize_status (with_status <$> ["Success"; "Success"; "InProgress"])
  = {[ "Success" := 2; "Failed" := 0; "InProgress" := 1; "Cancelled" := 0;
       "TimedOut" := 0; "Cancelling" := 0; "Received" := 0; "Other" := 0 ]}.
Proof. vm_compute. reflexivity. Qed.

(** Two turns: one record still in progress, then all succeeded. *)
Example scenario_two_cycles :
  run 200 session0
    [returned ["Success"; "Success"; "InProgress"];
     returned ["Success"; "Success"; "Success"]]
    (@main sample_loads no_options (command_text "abc-123"))
  = ([Printed Stdout
        [Text "Monitoring AWS SSM Command ID: "; Value (PyStr "abc-123")];
      Printed Stdout
        [Text "Polling interval: "; Value (PyInt 15); Text " seconds"];
      Printed Stdout [Text "----------------------------------------"];
      OpenedSession None; MadeClient "ssm" None;
      Called (PyStr "abc-123") true;
      Printed Stdout [Text "Status Summary:"];
      Printed Stdout [Text "  Total Instances:    "; Value (PyInt 3)];
      Printed Stdout [Text "  Success:            "; Value (PyInt 2)];
      Printed Stdout [Text "  Failed:             "; Value (PyInt 0)];
      Printed Stdout [Text "  In Progress:        "; Value (PyInt 1)];
      Printed Stdout [Text "  Cancelled:          "; Value (PyInt 0)];
      Printed Stdout [Text "  Timed Out:          "; Value (PyInt 0)];
      Printed Stdout [Text "  Cancelling:         "; Value (PyInt 0)];
      Printed Stdout [Text "  Received:           "; Value (PyInt 0)];
      Printed Stdout [Text "  Other:              "; Value (PyInt 0)];
      Printed Stdout [Text "----------------------------------------"];
      Slept 15;
      Called (PyStr "abc-123") true;
      Printed Stdout [Text "Status Summary:"];
      Printed Stdout [Text "  Total Instances:    "; Value (PyInt 3)];
      Printed Stdout [Text "  Success:            "; Value (PyInt 3)];
      Printed Stdout [Text "  Failed:             "; Value (PyInt 0)];
      Printed Stdout [Text "  In Progress:        "; Value (PyInt 0)];
      Printed Stdout [Text "  Cancelled:          "; Value (PyInt 0)];
      Printed Stdout [Text "  Timed Out:          "; Value (PyInt 0)];
      Printed Stdout [Text "  Cancelling:         "; Value (PyInt 0)];
      Printed Stdout [Text "  Received:           "; Value (PyInt 0)];
      Printed Stdout [Text "  Other:              "; Value (PyInt 0)];
      Printed Stdout [Text "----------------------------------------"];
      Printed Stdout [Text "All invocations succeeded."]],
     Exited 0).
Proof. vm_compute. reflexivity. Qed.

(** An empty [CommandId]: the diagnostic, status 1, and nothing else. *)
Example scenario_empty_command_id :
  run 200 session0 [] (@main sample_loads no_options (command_text ""))
  = ([Printed Stderr invalid_input_message], Exited 1).
Proof. vm_compute. reflexivity. Qed.

(** A text that is no JSON document. *)
Example scenario_not_json :
  run 200 session0 [] (@main sample_loads no_options "Command")
  = ([Printed Stderr invalid_input_message], Exited 1).
Proof. vm_compute. reflexivity. Qed.

(** Documents of the wrong shape: no diagnostic, an uncaught
    [TypeError]. *)
Example scenario_array :
  run 200 session0 [] (@main sample_loads no_options "[]")
  = ([], Crashed TypeError).
Proof. vm_compute. reflexivity. Qed.

Example scenario_null_command :
  run 200 session0 []
    (@main sample_loads no_options ("{" +:+ quoted "Command" +:+ ":null}"))
  = ([], Crashed TypeError).
Proof. vm_compute. reflexivity. Qed.

(** A failed invocation among settled ones: status 1. *)
Example scenario_failed :
  snd (run 200 session0 [returned ["Success"; "Failed"; "TimedOut"]]
         (@main sample_loads no_options (command_text "abc-123")))
  = Exited 1.
Proof. vm_compute. reflexivity. Qed.

(** The remote call raising on the second turn. *)
Example scenario_fetch_error :
  let r := run 200 session0 [stuck; ClientError "ThrottlingException"]
             (@main sample_loads no_options (command_text "abc-123")) in
  snd r = Exited 1
  /\ last (fst r)
     = Some (Printed Stderr [Text "Error fetching command invocations: ";
                             Text "ThrottlingException"])
  /\ length (List.filter is_call (fst r)) = 2%nat.
Proof. vm_compute. repeat split; reflexivity. Qed.

(** Five turns with a record in progress: five sleeps of 15, and the
    process asks for a sixth result. *)
Example scenario_still_polling :
  let r := run 400 session0 [stuck; stuck; stuck; stuck; stuck]
             (@main sample_loads no_options (command_text "abc-123")) in
  snd r = Waiting
  /\ List.filter is_sleep (fst r)
     = [Slept 15; Slept 15; Slept 15; Slept 15; Slept 15].
Proof. vm_compute. split; reflexivity. Qed.

End scenarios.
